(** * Conversation state and turn taking of the chat component

    A shallow embedding of [mychatbot/src/components/AICHatbotInterface.jsx]:
    the React state of [AIChatbotInterface] is a record, every handler of the
    component is a function on that record, and the asynchronous
    [sendMessage] is cut at its single [await] into the part that runs on
    submit and the part that runs when the request settles.

    React re-creates the handlers on every render. The embedding takes a
    render to have happened between any two events, so that a handler's
    closure variables are the fields of the state it is applied to. *)

From Stdlib Require Import ZArith NArith String Ascii Bool Lia.
From stdpp Require Import base option list gmap.

(** ** JavaScript strings

    A JS string is a sequence of UTF-16 code units. *)
Module JsString.

Definition t := list N.

(** An ASCII literal of the source. *)
Definition lit (s : string) : t := N_of_ascii <$> list_ascii_of_string s.

(** ECMAScript WhiteSpace and LineTerminator code points, the characters
    [String.prototype.trim] strips. All are in the basic plane, so the test
    is exact on code units. *)
Definition isWhiteSpace (c : N) : bool :=
  ((9 <=? c) && (c <=? 13) || (c =? 32) || (c =? 160) || (c =? 5760)
   || (8192 <=? c) && (c <=? 8202) || (c =? 8232) || (c =? 8233)
   || (c =? 8239) || (c =? 8287) || (c =? 12288) || (c =? 65279))%N.

Fixpoint trimStart (s : t) : t :=
  match s with
  | [] => []
  | c :: r => if isWhiteSpace c then trimStart r else s
  end.

Definition trimEnd (s : t) : t := rev (trimStart (rev s)).

Definition trim (s : t) : t := trimEnd (trimStart s).

(** ToBoolean on a string: only the empty string is falsy. *)
Definition truthy (s : t) : bool :=
  match s with [] => false | _ :: _ => true end.

(** [Array.prototype.join("")] on strings. *)
Definition join (ss : list t) : t := concat ss.

End JsString.

Abbreviation jsstring := JsString.t.

(** ** Data model *)

Inductive Sender := user | bot.

(** [{ name: f.name, size: f.size }], the display metadata of a file. *)
Record FileMeta := { meta_name : jsstring; meta_size : N }.

(** A [File] picked in the file input: the fields the component reads, and
    its bytes, which the component never reads. *)
Module File.
Record t := { name : jsstring; size : N; bytes : list N }.
End File.

(** An element of [messages]. [files] is [null] on a user message without
    attachments and absent on a bot message: both are [None]. *)
Record Message := {
  id : Z;
  text : jsstring;
  sender : Sender;
  timestamp : Z;
  files : option (list FileMeta)
}.

(** The two readings of the clock a handler takes when it builds a message:
    [Date.now()] for the id, then [new Date()] for the timestamp, both in
    milliseconds. Times are integers far below 2^53, where the additions of
    the source are exact. *)
Record Clock := { Date_now : Z; new_Date : Z }.

(** What is handed to the chat client: [ai.chats.create({model, history})]
    followed by [chat.sendMessage({message})]. *)
Inductive Role := role_user | role_model.

Record Content := { role : Role; parts : list jsstring }.

Record Request := {
  model : jsstring;
  history : list Content;
  message : list jsstring
}.

(** How the awaited call ends: the promise resolves with a response whose
    [text] is a string or [undefined], or it rejects. *)
Inductive Outcome :=
| Fulfilled (response_text : option jsstring)
| Rejected (reason : jsstring).

Inductive ErrorValue :=
| EndpointError (reason : jsstring)
| TypeError.

(** A line of the diagnostic channel, [console.error(label, detail)]. *)
Record LogEntry := { label : jsstring; detail : option ErrorValue }.

(** The platform recognition object held in [recognitionRef.current], with
    the calls the component has made on it. *)
Inductive EngineCall := start | stop.

Record Recognition := {
  continuous : bool;
  interimResults : bool;
  calls : list EngineCall
}.

(** One entry of [event.results]: the top alternative's transcript. *)
Record SpeechResult := { transcript : jsstring; alternatives : list jsstring }.

(** What the module reads from its surroundings when it is loaded:
    [import.meta.env.VITE_GEMINI_API_KEY] and whether [window] has a speech
    recognition constructor. *)
Record Env := {
  VITE_GEMINI_API_KEY : option jsstring;
  SpeechRecognition : bool
}.

(** The component's state hooks and refs, and the world it acts on: the
    requests that are in flight at the endpoint, keyed by a ticket that
    stands for the pending promise, and the console. *)
Record State := {
  messages : list Message;
  inputText : jsstring;
  isListening : bool;
  attachedFiles : list File.t;
  isTyping : bool;
  recognitionRef : option Recognition;
  inFlight : gmap nat Request;
  issued : nat;
  console : list LogEntry
}.

Definition setMessages (f : list Message -> list Message) (s : State) : State :=
  {| messages := f (messages s); inputText := inputText s;
     isListening := isListening s; attachedFiles := attachedFiles s;
     isTyping := isTyping s; recognitionRef := recognitionRef s;
     inFlight := inFlight s; issued := issued s; console := console s |}.

Definition setInputText (v : jsstring) (s : State) : State :=
  {| messages := messages s; inputText := v;
     isListening := isListening s; attachedFiles := attachedFiles s;
     isTyping := isTyping s; recognitionRef := recognitionRef s;
     inFlight := inFlight s; issued := issued s; console := console s |}.

Definition setIsListening (b : bool) (s : State) : State :=
  {| messages := messages s; inputText := inputText s;
     isListening := b; attachedFiles := attachedFiles s;
     isTyping := isTyping s; recognitionRef := recognitionRef s;
     inFlight := inFlight s; issued := issued s; console := console s |}.

Definition setAttachedFiles (f : list File.t -> list File.t) (s : State) : State :=
  {| messages := messages s; inputText := inputText s;
     isListening := isListening s; attachedFiles := f (attachedFiles s);
     isTyping := isTyping s; recognitionRef := recognitionRef s;
     inFlight := inFlight s; issued := issued s; console := console s |}.

Definition setIsTyping (b : bool) (s : State) : State :=
  {| messages := messages s; inputText := inputText s;
     isListening := isListening s; attachedFiles := attachedFiles s;
     isTyping := b; recognitionRef := recognitionRef s;
     inFlight := inFlight s; issued := issued s; console := console s |}.

Definition setRecognition (r : option Recognition) (s : State) : State :=
  {| messages := messages s; inputText := inputText s;
     isListening := isListening s; attachedFiles := attachedFiles s;
     isTyping := isTyping s; recognitionRef := r;
     inFlight := inFlight s; issued := issued s; console := console s |}.

Definition setInFlight (m : gmap nat Request) (n : nat) (s : State) : State :=
  {| messages := messages s; inputText := inputText s;
     isListening := isListening s; attachedFiles := attachedFiles s;
     isTyping := isTyping s; recognitionRef := recognitionRef s;
     inFlight := m; issued := n; console := console s |}.

Definition console_error (l : jsstring) (d : option ErrorValue) (s : State) : State :=
  {| messages := messages s; inputText := inputText s;
     isListening := isListening s; attachedFiles := attachedFiles s;
     isTyping := isTyping s; recognitionRef := recognitionRef s;
     inFlight := inFlight s; issued := issued s;
     console := console s ++ [{| label := l; detail := d |}] |}.

(** [recognitionRef.current?.m()]: the call is made only on a present
    object. *)
Definition invoke (c : EngineCall) (s : State) : State :=
  setRecognition
    ((fun r => {| continuous := continuous r;
                  interimResults := interimResults r;
                  calls := calls r ++ [c] |}) <$> recognitionRef s) s.

(** [prev.filter((_, i) => p(i))], with the index counted from [i]. *)
Fixpoint filter_index {A} (p : nat -> bool) (i : nat) (l : list A) : list A :=
  match l with
  | [] => []
  | x :: r => if p i then x :: filter_index p (S i) r else filter_index p (S i) r
  end.

(** ** The fixed texts of the source *)

Definition greeting_text : jsstring :=
  JsString.lit "Hello! I'm your AI assistant. How can I help you today?".

Definition key_missing_text : jsstring :=
  JsString.lit "API Error: The Gemini API key is missing. Please check your **.env.local** file and console for details.".

Definition error_text : jsstring :=
  JsString.lit "Sorry, I ran into an error. Please check the browser console for details.".

Definition fatal_label : jsstring :=
  JsString.lit "FATAL ERROR: VITE_GEMINI_API_KEY is not set. Please check your .env.local file.".

Definition api_error_label : jsstring := JsString.lit "Gemini API Error:".

Definition model_name : jsstring := JsString.lit "gemini-2.5-flash".

(** ** The component *)

Section Component.

Variable env : Env.

(** [const GEMINI_API_KEY = import.meta.env.VITE_GEMINI_API_KEY]. *)
Definition GEMINI_API_KEY : option jsstring := VITE_GEMINI_API_KEY env.

(** [!GEMINI_API_KEY]: the key is [undefined] or the empty string. *)
Definition key_missing : bool :=
  match GEMINI_API_KEY with
  | Some k => negb (JsString.truthy k)
  | None => true
  end.

(** [const ai = GEMINI_API_KEY ? new GoogleGenAI({apiKey}) : null]: the
    client is its key. *)
Definition ai : option jsstring :=
  if key_missing then None else GEMINI_API_KEY.

(** The greeting of [useState([...])], stamped at the first render. *)
Definition greeting (d : Z) : Message :=
  {| id := 1; text := greeting_text; sender := bot; timestamp := d;
     files := None |}.

(** The state of the first render; loading the module has already logged
    the missing key. *)
Definition initialState (d : Z) : State :=
  {| messages := [greeting d]; inputText := []; isListening := false;
     attachedFiles := []; isTyping := false; recognitionRef := None;
     inFlight := ∅; issued := 0;
     console := if key_missing
                then [{| label := fatal_label; detail := None |}] else [] |}.

Definition key_missing_message (c : Clock) : Message :=
  {| id := Date_now c + 2; text := key_missing_text; sender := bot;
     timestamp := new_Date c; files := None |}.

(** The first effect. [rendered] is the [messages] of the render the
    effect belongs to. *)
Definition key_effect (rendered : list Message) (c : Clock) (s : State) : State :=
  if key_missing && (length rendered =? 1)
  then setMessages (fun prev => prev ++ [key_missing_message c]) s
  else s.

(** The second effect: create the recognition object when the platform
    has one. *)
Definition speech_effect (s : State) : State :=
  if SpeechRecognition env
  then setRecognition
         (Some {| continuous := true; interimResults := true; calls := [] |}) s
  else s.

(** Mounting runs both effects once, in source order. *)
Definition mount (c : Clock) (s : State) : State :=
  speech_effect (key_effect (messages s) c s).

(** [recognitionRef.current.onresult]. *)
Definition onresult (results : list SpeechResult) (s : State) : State :=
  setInputText (JsString.join (transcript <$> results)) s.

(** [recognitionRef.current.onend]. *)
Definition onend (s : State) : State := setIsListening false s.

Definition toggleListening (s : State) : State :=
  if isListening s
  then setIsListening false (invoke stop s)
  else setIsListening true (invoke start s).

Definition handleFileAttachment (picked : list File.t) (s : State) : State :=
  setAttachedFiles (fun prev => prev ++ picked) s.

Definition removeFile (index : nat) (s : State) : State :=
  setAttachedFiles
    (fun prev => filter_index (fun i => negb (i =? index)) 0 prev) s.

(** The guard of [sendMessage], negated: the call goes on exactly when
    this holds. *)
Definition accepted (s : State) : bool :=
  negb (negb (bool_decide (is_Some ai))
        || negb (JsString.truthy (JsString.trim (inputText s)))
           && (length (attachedFiles s) =? 0)).

Definition newMessage (c : Clock) (s : State) : Message :=
  {| id := Date_now c; text := inputText s; sender := user;
     timestamp := new_Date c;
     files := if 0 <? length (attachedFiles s)
              then Some ((fun f => {| meta_name := File.name f; meta_size := File.size f |})
                           <$> attachedFiles s)
              else None |}.

(** [messages.slice(1).filter((msg) => msg.text).map(...)]. *)
Definition chatHistory (msgs : list Message) : list Content :=
  (fun msg =>
     {| role := match sender msg with user => role_user | bot => role_model end;
        parts := [text msg] |})
    <$> List.filter (fun msg => JsString.truthy (text msg)) (drop 1 msgs).

(** [sendMessage] up to its [await]: the request leaves with a fresh
    ticket. *)
Definition sendMessage (c : Clock) (s : State) : State :=
  if accepted s then
    let userMessageText := inputText s in
    let request :=
      {| model := model_name; history := chatHistory (messages s);
         message := [userMessageText] |} in
    setInFlight (<[issued s := request]> (inFlight s)) (S (issued s))
      (setIsTyping true
         (setAttachedFiles (fun _ => [])
            (setInputText []
               (setMessages (fun prev => prev ++ [newMessage c s]) s))))
  else s.

Definition botResponse (c : Clock) (t : jsstring) : Message :=
  {| id := Date_now c + 1; text := JsString.trim t; sender := bot;
     timestamp := new_Date c; files := None |}.

Definition errorResponse (c : Clock) : Message :=
  {| id := Date_now c + 1; text := error_text; sender := bot;
     timestamp := new_Date c; files := None |}.

(** The [catch] block. *)
Definition sendMessage_catch (error : ErrorValue) (c : Clock) (s : State) : State :=
  setMessages (fun prev => prev ++ [errorResponse c])
    (console_error api_error_label (Some error) s).

(** [sendMessage] from its [await] on. [result.text.trim()] throws a
    [TypeError] inside the [try] when [text] is [undefined]. *)
Definition sendMessage_settled (o : Outcome) (c : Clock) (s : State) : State :=
  setIsTyping false
    match o with
    | Fulfilled (Some t) =>
        setMessages (fun prev => prev ++ [botResponse c t]) s
    | Fulfilled None => sendMessage_catch TypeError c s
    | Rejected reason => sendMessage_catch (EndpointError reason) c s
    end.

Definition handleKeyPress (key : jsstring) (shiftKey : bool) (c : Clock)
    (s : State) : State :=
  if bool_decide (key = JsString.lit "Enter") && negb shiftKey
  then sendMessage c s
  else s.

(** ** Sessions

    What can happen to a mounted component. The recognition callbacks
    exist only on a recognition object, and only a request in flight can
    settle; an event that cannot happen leaves the state as it is. The send
    button is disabled exactly when the second half of the guard of
    [sendMessage] rejects, so a click that cannot happen is a call that
    returns at once. *)
Inductive Event :=
| Change (value : jsstring)
| ClickMic
| SpeechResults (results : list SpeechResult)
| SpeechEnd
| FilesPicked (picked : list File.t)
| ClickRemove (index : nat)
| ClickSend (c : Clock)
| KeyPress (key : jsstring) (shiftKey : bool) (c : Clock)
| Settled (ticket : nat) (o : Outcome) (c : Clock).

Definition step (s : State) (e : Event) : State :=
  match e with
  | Change value => setInputText value s
  | ClickMic => toggleListening s
  | SpeechResults results =>
      if recognitionRef s is Some _ then onresult results s else s
  | SpeechEnd => if recognitionRef s is Some _ then onend s else s
  | FilesPicked picked => handleFileAttachment picked s
  | ClickRemove index => removeFile index s
  | ClickSend c => sendMessage c s
  | KeyPress key shiftKey c => handleKeyPress key shiftKey c s
  | Settled ticket o c =>
      if inFlight s !! ticket is Some _
      then sendMessage_settled o c
             (setInFlight (delete ticket (inFlight s)) (issued s) s)
      else s
  end.

Definition run (s : State) (evs : list Event) : State := foldl step s evs.

(** A session: first render at [d], mount at [c], then the events. *)
Definition session (d : Z) (c : Clock) (evs : list Event) : State :=
  run (mount c (initialState d)) evs.

End Component.

(** ** Vocabulary of the properties *)

(** The event settles the request with ticket [k]. *)
Definition settles (k : nat) (e : Event) : bool :=
  match e with
  | Settled ticket _ _ => bool_decide (ticket = k)
  | _ => false
  end.

(** The event calls [sendMessage]: a click on the send button, or Enter
    without shift in the text area. *)
Definition submits (e : Event) : bool :=
  match e with
  | ClickSend _ => true
  | KeyPress key shiftKey _ =>
      bool_decide (key = JsString.lit "Enter") && negb shiftKey
  | _ => false
  end.

(** Along [evs] from [s], [sendMessage] is never let past its guard while a
    request is in flight. *)
Fixpoint serial (env : Env) (s : State) (evs : list Event) : bool :=
  match evs with
  | [] => true
  | e :: rest =>
      (negb (submits e && accepted env s) || bool_decide (inFlight s = ∅))
      && serial env (step env s e) rest
  end.

(** The endpoint does not answer with a text that is blank. *)
Definition answers_nonblank (e : Event) : bool :=
  match e with
  | Settled _ (Fulfilled (Some t)) _ => JsString.truthy (JsString.trim t)
  | _ => true
  end.

(** The outbound history in the words of the design: of the prior messages,
    all but the greeting at the head of the store, without those whose text
    is empty, each as a role with a single text part. *)
Definition spec_role (x : Sender) : Role :=
  match x with user => role_user | bot => role_model end.

Definition spec_content (m : Message) : Content :=
  {| role := spec_role (sender m); parts := [text m] |}.

Fixpoint spec_turns (prior : list Message) : list Content :=
  match prior with
  | [] => []
  | m :: rest =>
      match text m with
      | [] => spec_turns rest
      | _ :: _ => spec_content m :: spec_turns rest
      end
  end.

Definition spec_history (store : list Message) : list Content :=
  match store with
  | [] => []
  | _ :: prior => spec_turns prior
  end.

(** While a request is in flight [isTyping] is true, and at most one
    request is in flight. *)
Definition one_request_at_a_time (s : State) : Prop :=
  (inFlight s <> ∅ -> isTyping s = true) /\ size (inFlight s) <= 1.

(** The two states of a component that takes one turn at a time: idle with
    [isTyping] false, or waiting for its one request with [isTyping] true. *)
Definition idle_or_waiting (s : State) : Prop :=
  (inFlight s = ∅ /\ isTyping s = false) \/
  (exists k r, inFlight s = {[k := r]} /\ isTyping s = true).

(** A message whose text is empty carries attachments. *)
Definition text_or_attachments (m : Message) : Prop :=
  text m = [] -> exists fs, files m = Some fs /\ fs <> [].

(** ** Further vocabulary *)

(** The [disabled] attribute of the send button in the rendered form. *)
Definition send_disabled (s : State) : bool :=
  negb (JsString.truthy (JsString.trim (inputText s)))
  && (length (attachedFiles s) =? 0).

(** The event ends a request in the [catch] block of [sendMessage]. *)
Definition fails (e : Event) : bool :=
  match e with
  | Settled _ (Fulfilled (Some _)) _ => false
  | Settled _ _ _ => true
  | _ => false
  end.


(** The clock an event's handler may read. *)
Definition clock_of (e : Event) : option Clock :=
  match e with
  | ClickSend c | KeyPress _ _ c | Settled _ _ c => Some c
  | _ => None
  end.


Definition from_user (m : Message) : bool :=
  match sender m with user => true | bot => false end.

Definition from_bot (m : Message) : bool := negb (from_user m).

(** [n] complete turns: a user message and the bot message after it. *)
Fixpoint turns (n : nat) : list Sender :=
  match n with
  | 0 => []
  | S k => user :: bot :: turns k
  end.

(** In a log of engine calls every [stop] comes right after a [start];
    [started] tells whether the call before the log was a [start]. *)
Fixpoint stops_follow_starts (started : bool) (cs : list EngineCall) : bool :=
  match cs with
  | [] => true
  | start :: rest => stops_follow_starts true rest
  | stop :: rest => started && stops_follow_starts false rest
  end.

(** What of a message can reach the endpoint. *)
Definition spoken (m : Message) : Sender * jsstring := (sender m, text m).

(** The three kinds of step: one that leaves the conversation alone, a
    submit that passes the guard, and the settling of a request in flight. *)
Inductive StepKind (env : Env) (s : State) (e : Event) : Prop :=
| step_quiet :
    messages (step env s e) = messages s ->
    isTyping (step env s e) = isTyping s ->
    inFlight (step env s e) = inFlight s ->
    issued (step env s e) = issued s ->
    console (step env s e) = console s ->
    fails e = false \/ (exists k o c, e = Settled k o c /\ inFlight s !! k = None) ->
    StepKind env s e
| step_submit c :
    clock_of e = Some c ->
    submits e = true ->
    accepted env s = true ->
    step env s e = sendMessage env c s ->
    StepKind env s e
| step_settle k o c r :
    e = Settled k o c ->
    inFlight s !! k = Some r ->
    step env s e
    = sendMessage_settled o c (setInFlight (delete k (inFlight s)) (issued s) s) ->
    StepKind env s e.

(** Tickets in flight were all given out already; user messages are as
    many as tickets; bot messages and requests in flight together are as
    many as tickets, on top of the bot messages of the mount. *)
Definition balanced (env : Env) (s : State) : Prop :=
  (forall k, is_Some (inFlight s !! k) -> k < issued s) /\
  length (List.filter from_user (messages s)) = issued s /\
  length (List.filter from_bot (messages s)) + size (inFlight s)
  = issued s + (if key_missing env then 2 else 1).

(** The recognition object of a mounted component: there is one exactly on
    a platform that has speech recognition; it is continuous with interim
    results; the component has only ever stopped it right after starting
    it, and while [isListening] is true its last call was a [start]. *)
Definition engine_ok (env : Env) (s : State) : Prop :=
  match recognitionRef s with
  | Some r =>
      SpeechRecognition env = true /\
      continuous r = true /\ interimResults r = true /\
      stops_follow_starts false (calls r) = true /\
      (isListening s = true -> last (calls r) = Some start)
  | None => SpeechRecognition env = false
  end.

(** ** Sample surroundings and inputs *)

Module Sample.

Definition with_key : Env :=
  {| VITE_GEMINI_API_KEY := Some (JsString.lit "AIza");
     SpeechRecognition := true |}.

Definition without_key : Env :=
  {| VITE_GEMINI_API_KEY := None; SpeechRecognition := true |}.

Definition no_speech : Env :=
  {| VITE_GEMINI_API_KEY := Some (JsString.lit "AIza");
     SpeechRecognition := false |}.

(** Both clock readings fall in the same millisecond [t]. *)
Definition at_ms (t : Z) : Clock := {| Date_now := t; new_Date := t |}.

Definition notes : File.t :=
  {| File.name := JsString.lit "notes.txt"; File.size := 3;
     File.bytes := [104; 105; 10]%N |}.

(** The state of a mounted component with a key and "Hello" typed. *)
Definition typed_hello : State :=
  session with_key 0 (at_ms 5) [Change (JsString.lit "Hello")].

(** One turn: "Hello" is sent at 1000 and answered at 1005. *)
Definition hello_turn (answer : jsstring) : list Event :=
  [Change (JsString.lit "Hello"); ClickSend (at_ms 1000);
   Settled 0 (Fulfilled (Some answer)) (at_ms 1005)].

(** The state after that turn, with "Thanks" typed. *)
Definition typed_thanks : State :=
  session with_key 0 (at_ms 5)
    (hello_turn (JsString.lit " Hi there ") ++ [Change (JsString.lit "Thanks")]).

(** "Thanks" is typed while the answer to "Hello" is awaited and sent in the
    millisecond after the answer has arrived. *)
Definition quick_reply : list Event :=
  [Change (JsString.lit "Hello"); ClickSend (at_ms 1000);
   Change (JsString.lit "Thanks");
   Settled 0 (Fulfilled (Some (JsString.lit " Hi there "))) (at_ms 1005);
   ClickSend (at_ms 1006)].

(** Two submits, the second while the first request is in flight. *)
Definition overlap : list Event :=
  [Change (JsString.lit "a"); ClickSend (at_ms 1000);
   Change (JsString.lit "b"); KeyPress (JsString.lit "Enter") false (at_ms 1001)].

(** A file is staged and sent with an empty input text. *)
Definition file_turn : list Event :=
  [FilesPicked [notes]; ClickSend (at_ms 1000);
   Settled 0 (Fulfilled (Some (JsString.lit "Got it."))) (at_ms 1005)].

Definition file_message : Message :=
  {| id := 1000; text := []; sender := user; timestamp := 1000;
     files := Some [{| meta_name := JsString.lit "notes.txt"; meta_size := 3 |}] |}.


(** Dictation is switched on, hears something, and is switched off. *)
Definition dictation : list Event :=
  [ClickMic;
   SpeechResults [{| transcript := JsString.lit "hel"; alternatives := [] |}];
   SpeechResults [{| transcript := JsString.lit "hello "; alternatives := [] |};
                  {| transcript := JsString.lit "world"; alternatives := [] |}];
   ClickMic].

Definition photo : File.t :=
  {| File.name := JsString.lit "cat.png"; File.size := 2;
     File.bytes := [137; 80]%N |}.

(** Two files staged on a mounted component. *)
Definition two_staged : State :=
  session with_key 0 (at_ms 5) [FilesPicked [notes; photo]].

End Sample.

Arguments accepted : simpl never.

(** ** Frame lemmas: what each handler leaves alone *)

Section Frames.

Variable env : Env.

Implicit Types (s : State) (e : Event) (c : Clock) (evs : list Event).

Lemma accepted_spec s :
  accepted env s = true <->
  is_Some (ai env) /\
  (JsString.trim (inputText s) <> [] \/ attachedFiles s <> []).
Proof.
  unfold accepted. rewrite negb_true_iff, orb_false_iff, andb_false_iff.
  rewrite !negb_false_iff, bool_decide_eq_true.
  destruct (JsString.trim (inputText s)), (attachedFiles s); simpl;
    intuition congruence.
Qed.

Lemma rejected_spec s :
  accepted env s = false <->
  ai env = None \/
  (JsString.trim (inputText s) = [] /\ attachedFiles s = []).
Proof.
  rewrite <- not_true_iff_false, accepted_spec.
  rewrite <- not_eq_None_Some.
  destruct (ai env), (JsString.trim (inputText s)), (attachedFiles s);
    intuition congruence.
Qed.

Lemma sendMessage_rejected c s :
  accepted env s = false -> sendMessage env c s = s.
Proof. intros H. unfold sendMessage. now rewrite H. Qed.

Lemma sendMessage_messages c s :
  accepted env s = true ->
  messages (sendMessage env c s) = messages s ++ [newMessage c s].
Proof. intros H. unfold sendMessage. now rewrite H. Qed.

Lemma sendMessage_settled_messages o c s :
  exists m, messages (sendMessage_settled o c s) = messages s ++ [m].
Proof. destruct o as [[t|]|r]; simpl; eauto. Qed.

(** Every event appends to the store or leaves it alone. *)
Lemma step_appends s e : messages s `prefix_of` messages (step env s e).
Proof.
  destruct e as [| | | | | | | |k o c]; simpl;
    unfold toggleListening, handleKeyPress, sendMessage.
  9: { destruct (inFlight s !! k); [|reflexivity].
       edestruct sendMessage_settled_messages as [m ->].
       now apply prefix_app_r. }
  all: repeat case_match; simpl; try reflexivity; now apply prefix_app_r.
Qed.

Lemma run_appends evs s : messages s `prefix_of` messages (run env s evs).
Proof.
  revert s. induction evs as [|e evs IH]; intros s; simpl.
  - reflexivity.
  - etransitivity; [apply step_appends | apply IH].
Qed.

Lemma mount_appends c s : messages s `prefix_of` messages (mount env c s).
Proof.
  unfold mount, speech_effect, key_effect.
  repeat case_match; simpl; try reflexivity;
    now apply prefix_app_r.
Qed.

Lemma run_app s evs evs' :
  run env s (evs ++ evs') = run env (run env s evs) evs'.
Proof. apply foldl_app. Qed.

End Frames.

(** ** The guard of [sendMessage] *)

(** C4: a call to [sendMessage] without a client ([ai] is [null]: the
    credential was missing), or with a blank input text and no staged
    attachment, returns the state it was given: the store, the input text,
    the attachment list and [isTyping] are unchanged and no request is
    issued to the endpoint. The same holds for the two events that invoke
    it. *)
Theorem sendMessage_noop (env : Env) (c : Clock) (s : State) :
  ai env = None \/
  (JsString.trim (inputText s) = [] /\ attachedFiles s = []) ->
  sendMessage env c s = s /\
  messages (sendMessage env c s) = messages s /\
  inputText (sendMessage env c s) = inputText s /\
  attachedFiles (sendMessage env c s) = attachedFiles s /\
  isTyping (sendMessage env c s) = isTyping s /\
  inFlight (sendMessage env c s) = inFlight s /\
  issued (sendMessage env c s) = issued s /\
  step env s (ClickSend c) = s /\
  (forall key shiftKey, step env s (KeyPress key shiftKey c) = s).
Proof.
  intros H. apply rejected_spec in H.
  pose proof (sendMessage_rejected env c s H) as E.
  rewrite E. repeat split; try assumption.
  intros key shiftKey. simpl. unfold handleKeyPress.
  now destruct (_ && _).
Qed.

Lemma sendMessage_noop_witness :
  (JsString.trim (inputText (initialState Sample.with_key 0)) = [] /\
   attachedFiles (initialState Sample.with_key 0) = []) /\
  sendMessage Sample.with_key (Sample.at_ms 9) (initialState Sample.with_key 0)
  = initialState Sample.with_key 0.
Proof.
  split; [split; reflexivity |].
  apply (sendMessage_noop Sample.with_key (Sample.at_ms 9)
           (initialState Sample.with_key 0)).
  right. split; reflexivity.
Defined.

(** ** The store only grows *)

(** C5: the store starts as the single greeting, a bot message; mounting
    and every event leave the messages that are there in place and in
    order, adding at the end only; so at any point of a session the store
    begins with what it held before, and its first message is the
    greeting. *)
Theorem messages_append_only :
  (forall env d,
      messages (initialState env d) = [greeting d] /\
      sender (greeting d) = bot) /\
  (forall env c s, messages s `prefix_of` messages (mount env c s)) /\
  (forall env s e, messages s `prefix_of` messages (step env s e)) /\
  (forall env d c evs evs',
      messages (session env d c evs)
      `prefix_of` messages (session env d c (evs ++ evs'))) /\
  (forall env d c evs, messages (session env d c evs) !! 0 = Some (greeting d)).
Proof.
  split; [now intros | split; [apply mount_appends | split; [apply step_appends |]]].
  split.
  - intros env d c evs evs'. unfold session. rewrite run_app. apply run_appends.
  - intros env d c evs.
    assert (messages (initialState env d)
            `prefix_of` messages (session env d c evs)) as [tail ->].
    { unfold session. etransitivity; [apply mount_appends | apply run_appends]. }
    reflexivity.
Qed.

(** ** A missing credential *)

Lemma run_without_client env evs s :
  ai env = None -> inFlight s = ∅ ->
  messages (run env s evs) = messages s /\ inFlight (run env s evs) = ∅.
Proof.
  intros Hai. revert s. induction evs as [|e evs IH]; intros s Hs; [easy |].
  assert (accepted env s = false) as Hrej by (apply rejected_spec; now left).
  assert (messages (step env s e) = messages s /\ inFlight (step env s e) = ∅)
    as [Hm Hf].
  { destruct e; simpl; unfold toggleListening, handleKeyPress;
      rewrite ?sendMessage_rejected by assumption;
      rewrite ?Hs, ?lookup_empty;
      repeat case_match; simpl; auto. }
  simpl. destruct (IH _ Hf) as [IHm IHf]. split; congruence.
Qed.

(** C7: when the key is missing as the module loads, mounting adds one bot
    message with the key-missing text after the greeting, so the store is
    the greeting followed by that message; it stays so for the rest of the
    session, no request is ever in flight, and every call to [sendMessage]
    returns the state unchanged. *)
Theorem missing_key_session (env : Env) (d : Z) (c0 : Clock) :
  key_missing env = true ->
  messages (mount env c0 (initialState env d))
  = [greeting d; key_missing_message c0] /\
  sender (key_missing_message c0) = bot /\
  text (key_missing_message c0) = key_missing_text /\
  forall evs,
    messages (session env d c0 evs) = [greeting d; key_missing_message c0] /\
    inFlight (session env d c0 evs) = ∅ /\
    forall c, sendMessage env c (session env d c0 evs) = session env d c0 evs.
Proof.
  intros Hk.
  assert (ai env = None) as Hai by (unfold ai; now rewrite Hk).
  assert (messages (mount env c0 (initialState env d))
          = [greeting d; key_missing_message c0]) as Hm.
  { unfold mount, speech_effect, key_effect. rewrite Hk. simpl.
    now destruct (SpeechRecognition env). }
  assert (inFlight (mount env c0 (initialState env d)) = ∅) as Hf.
  { unfold mount, speech_effect, key_effect. rewrite Hk. simpl.
    now destruct (SpeechRecognition env). }
  repeat split; try assumption.
  - unfold session. destruct (run_without_client env evs _ Hai Hf). congruence.
  - unfold session. now destruct (run_without_client env evs _ Hai Hf).
  - intros c. apply sendMessage_rejected, rejected_spec. now left.
Qed.

Lemma missing_key_session_witness :
  key_missing Sample.without_key = true /\
  messages (session Sample.without_key 0 (Sample.at_ms 5)
              [Change (JsString.lit "Hello"); ClickSend (Sample.at_ms 1000)])
  = [greeting 0; key_missing_message (Sample.at_ms 5)].
Proof.
  split; [reflexivity |].
  apply (missing_key_session Sample.without_key 0 (Sample.at_ms 5)).
  reflexivity.
Defined.

(** ** One turn *)

Section Turn.

Variable env : Env.

Implicit Types (s : State) (e : Event) (c : Clock) (evs : list Event).

Lemma sendMessage_inFlight c s :
  accepted env s = true ->
  inFlight (sendMessage env c s)
  = <[issued s :=
        {| model := model_name; history := chatHistory (messages s);
           message := [inputText s] |}]> (inFlight s) /\
  issued (sendMessage env c s) = S (issued s).
Proof. intros H. unfold sendMessage. now rewrite H. Qed.

(** A request stays in flight until the event that settles it, and
    tickets are never reused. *)
Lemma step_keeps_ticket k s e :
  is_Some (inFlight s !! k) -> k < issued s -> settles k e = false ->
  is_Some (inFlight (step env s e) !! k) /\ k < issued (step env s e).
Proof.
  intros Hk Hlt He.
  assert (forall c, is_Some (inFlight (sendMessage env c s) !! k)
                    /\ k < issued (sendMessage env c s)) as Hsend.
  { intros c. destruct (accepted env s) eqn:Ha.
    - destruct (sendMessage_inFlight c s Ha) as [-> ->].
      rewrite lookup_insert_ne by lia. split; [assumption | lia].
    - now rewrite sendMessage_rejected. }
  destruct e as [| | | | | | c | key shiftKey c | k' o c]; simpl;
    unfold toggleListening, handleKeyPress;
    try (repeat case_match; simpl; auto; fail).
  destruct (inFlight s !! k') eqn:Hk'; [| auto].
  simpl in He. apply bool_decide_eq_false in He.
  destruct o as [[t|]|reason]; simpl;
    rewrite lookup_delete_ne by assumption; auto.
Qed.

Lemma run_keeps_ticket k evs s :
  is_Some (inFlight s !! k) -> k < issued s ->
  Forall (fun e => settles k e = false) evs ->
  is_Some (inFlight (run env s evs) !! k).
Proof.
  revert s. induction evs as [|e evs IH]; intros s Hk Hlt Hev; [assumption |].
  inversion Hev as [|? ? He Hrest]; subst. simpl.
  destruct (step_keeps_ticket k s e Hk Hlt He) as [Hk' Hlt'].
  now apply IH.
Qed.

(** The store between a submit that passes the guard and the event that
    settles its request: the user message, then whatever the events in
    between appended. *)
Lemma turn_open c s during :
  accepted env s = true ->
  Forall (fun e => settles (issued s) e = false) during ->
  exists others,
    messages (run env (sendMessage env c s) during)
    = messages s ++ [newMessage c s] ++ others /\
    (during = [] -> others = []) /\
    is_Some (inFlight (run env (sendMessage env c s) during) !! issued s).
Proof.
  intros Ha Hev.
  destruct (sendMessage_inFlight c s Ha) as [Hf Hi].
  destruct (run_appends env during (sendMessage env c s)) as [others Ho].
  exists others. split; [| split].
  - rewrite Ho, sendMessage_messages by assumption. now rewrite <- app_assoc.
  - intros ->. simpl in Ho. symmetry in Ho.
    rewrite <- (app_nil_r (messages _)) in Ho at 2.
    now apply app_inv_head in Ho.
  - apply run_keeps_ticket; [| lia | assumption].
    rewrite Hf, lookup_insert_eq. eauto.
Qed.

End Turn.

(** C1: take a call to [sendMessage] that passes the guard, any events that
    follow it without settling its request, and then the settling of that
    request with response text [t]. The call appends the user message,
    which carries the submitted text, when it is made and the bot message,
    whose text is [t] trimmed, when the request settles: in the store these
    two come in that order after what was there at the call, separated only
    by what the events in between appended (nothing, when there are none),
    and [isTyping] is false afterwards. *)
Theorem sendMessage_success (env : Env) (c : Clock) (s : State)
    (during : list Event) (t : jsstring) (c' : Clock) :
  accepted env s = true ->
  Forall (fun e => settles (issued s) e = false) during ->
  let s1 := sendMessage env c s in
  let s2 := run env s1 during in
  let s3 := step env s2 (Settled (issued s) (Fulfilled (Some t)) c') in
  exists others,
    messages s1 = messages s ++ [newMessage c s] /\
    messages s2 = messages s ++ [newMessage c s] ++ others /\
    messages s3
    = messages s ++ [newMessage c s] ++ others ++ [botResponse c' t] /\
    (during = [] ->
     messages s3 = messages s ++ [newMessage c s; botResponse c' t]) /\
    sender (newMessage c s) = user /\
    text (newMessage c s) = inputText s /\
    sender (botResponse c' t) = bot /\
    text (botResponse c' t) = JsString.trim t /\
    isTyping s3 = false.
Proof.
  intros Ha Hev s1 s2 s3.
  destruct (turn_open env c s during Ha Hev) as (others & Ho & Hnil & [r Hr]).
  assert (messages s3 = messages s2 ++ [botResponse c' t] /\ isTyping s3 = false)
    as [H3 Ht].
  { subst s3 s2 s1. simpl. now rewrite Hr. }
  exists others. subst s2 s1.
  rewrite H3, Ho, sendMessage_messages by assumption.
  repeat split; try assumption; try reflexivity.
  - now rewrite <- !app_assoc.
  - intros Hd. rewrite (Hnil Hd). now rewrite <- app_assoc.
Qed.

Lemma sendMessage_success_witness :
  accepted Sample.with_key Sample.typed_hello = true /\
  messages
    (step Sample.with_key
       (sendMessage Sample.with_key (Sample.at_ms 1000) Sample.typed_hello)
       (Settled 0 (Fulfilled (Some (JsString.lit " Hi there ")))
          (Sample.at_ms 1005)))
  = [greeting 0;
     {| id := 1000; text := JsString.lit "Hello"; sender := user;
        timestamp := 1000; files := None |};
     {| id := 1006; text := JsString.lit "Hi there"; sender := bot;
        timestamp := 1005; files := None |}].
Proof.
  split; [reflexivity |].
  destruct (sendMessage_success Sample.with_key (Sample.at_ms 1000)
              Sample.typed_hello [] (JsString.lit " Hi there ")
              (Sample.at_ms 1005) eq_refl (List.Forall_nil _))
    as (others & _ & _ & _ & H & _).
  exact (H eq_refl).
Defined.

(** C2: the same turn when the awaited call rejects with [reason]: the
    call appends the user message when it is made and, when the request
    settles, the bot message with the fixed error text; the rejection is
    written to the console under the label of the [catch] block, and
    [isTyping] is false afterwards. *)
Theorem sendMessage_failure (env : Env) (c : Clock) (s : State)
    (during : list Event) (reason : jsstring) (c' : Clock) :
  accepted env s = true ->
  Forall (fun e => settles (issued s) e = false) during ->
  let s1 := sendMessage env c s in
  let s2 := run env s1 during in
  let s3 := step env s2 (Settled (issued s) (Rejected reason) c') in
  exists others,
    messages s1 = messages s ++ [newMessage c s] /\
    messages s2 = messages s ++ [newMessage c s] ++ others /\
    messages s3
    = messages s ++ [newMessage c s] ++ others ++ [errorResponse c'] /\
    (during = [] ->
     messages s3 = messages s ++ [newMessage c s; errorResponse c']) /\
    sender (newMessage c s) = user /\
    text (newMessage c s) = inputText s /\
    sender (errorResponse c') = bot /\
    text (errorResponse c') = error_text /\
    console s3
    = console s2 ++ [{| label := api_error_label;
                        detail := Some (EndpointError reason) |}] /\
    isTyping s3 = false.
Proof.
  intros Ha Hev s1 s2 s3.
  destruct (turn_open env c s during Ha Hev) as (others & Ho & Hnil & [r Hr]).
  assert (messages s3 = messages s2 ++ [errorResponse c'] /\
          console s3
          = console s2 ++ [{| label := api_error_label;
                              detail := Some (EndpointError reason) |}] /\
          isTyping s3 = false)
    as (H3 & Hc & Ht).
  { subst s3 s2 s1. simpl. now rewrite Hr. }
  exists others. subst s2 s1.
  rewrite H3, Ho, sendMessage_messages by assumption.
  repeat split; try assumption; try reflexivity.
  - now rewrite <- !app_assoc.
  - intros Hd. rewrite (Hnil Hd). now rewrite <- app_assoc.
Qed.

Lemma sendMessage_failure_witness :
  accepted Sample.with_key Sample.typed_hello = true /\
  messages
    (step Sample.with_key
       (sendMessage Sample.with_key (Sample.at_ms 1000) Sample.typed_hello)
       (Settled 0 (Rejected (JsString.lit "503")) (Sample.at_ms 1005)))
  = [greeting 0;
     {| id := 1000; text := JsString.lit "Hello"; sender := user;
        timestamp := 1000; files := None |};
     {| id := 1006; text := error_text; sender := bot;
        timestamp := 1005; files := None |}].
Proof.
  split; [reflexivity |].
  destruct (sendMessage_failure Sample.with_key (Sample.at_ms 1000)
              Sample.typed_hello [] (JsString.lit "503")
              (Sample.at_ms 1005) eq_refl (List.Forall_nil _))
    as (others & _ & _ & _ & H & _).
  exact (H eq_refl).
Defined.

(** ** The outbound history *)

Lemma chatHistory_tail (g : Message) (prior : list Message) :
  chatHistory (g :: prior) = spec_turns prior.
Proof.
  unfold chatHistory. change (drop 1 (g :: prior)) with prior.
  induction prior as [|m rest IH]; [reflexivity |].
  cbn [List.filter spec_turns].
  destruct (text m) eqn:Hm; cbn [JsString.truthy]; [exact IH |].
  rewrite fmap_cons, IH. unfold spec_content, spec_role. now rewrite Hm.
Qed.

Lemma chatHistory_spec (msgs : list Message) :
  chatHistory msgs = spec_history msgs.
Proof. destruct msgs; [reflexivity | apply chatHistory_tail]. Qed.

Lemma elem_of_spec_turns (prior : list Message) (h : Content) :
  h ∈ spec_turns prior <->
  exists i m, prior !! i = Some m /\ text m <> [] /\ h = spec_content m.
Proof.
  induction prior as [|m rest IH]; simpl.
  - split; [intros H; inversion H | intros (i & m & H & _); discriminate].
  - destruct (text m) eqn:Hm.
    + rewrite IH. split.
      * intros (i & m' & H). exists (S i), m'. exact H.
      * intros ([|i] & m' & H & Hne & ->); simpl in H.
        -- congruence.
        -- eauto.
    + rewrite elem_of_cons, IH. split.
      * intros [-> | (i & m' & H)].
        -- exists 0, m. simpl. rewrite Hm. easy.
        -- exists (S i), m'. exact H.
      * intros ([|i] & m' & H & Hne & ->); simpl in H.
        -- left. congruence.
        -- right. eauto.
Qed.

Lemma spec_turns_parts (prior : list Message) :
  Forall (fun h => exists t, parts h = [t] /\ t <> []) (spec_turns prior).
Proof.
  induction prior as [|m rest IH]; simpl; [constructor |].
  destruct (text m) eqn:Hm; [assumption |].
  constructor; [| assumption].
  exists (text m). simpl. rewrite Hm. easy.
Qed.

(** C3: a call to [sendMessage] that passes the guard issues one request.
    Its history is built from the store as the call found it: the first
    message is dropped, then every message with empty text, and each
    message left becomes its role ([user] for a user message, [model] for a
    bot message) with its text as the single part, in store order. So an
    entry of the history always comes from a message at position one or
    later whose text is not empty; the message at position zero, the
    greeting, and messages with empty text contribute nothing. The text
    just submitted travels as the message, not in the history. *)
Theorem sendMessage_history (env : Env) (c : Clock) (s : State) :
  accepted env s = true ->
  exists request,
    inFlight (sendMessage env c s) !! issued s = Some request /\
    history request = spec_history (messages s) /\
    (forall g prior, messages s = g :: prior ->
                     history request = spec_turns prior) /\
    (forall h, h ∈ history request <->
               exists i m, messages s !! S i = Some m /\ text m <> [] /\
                           h = spec_content m) /\
    Forall (fun h => exists t, parts h = [t] /\ t <> []) (history request) /\
    message request = [inputText s].
Proof.
  intros Ha. destruct (sendMessage_inFlight env c s Ha) as [Hf _].
  eexists. split; [rewrite Hf; apply lookup_insert_eq |]. simpl.
  rewrite chatHistory_spec.
  split; [reflexivity |].
  destruct (messages s) as [|g prior]; simpl;
    (split; [| split; [| split; [| reflexivity]]]).
  - intros g prior [=].
  - intros h. split; [intros H; inversion H |].
    intros (i & m & H & _). discriminate.
  - constructor.
  - intros g' prior' [= _ ->]. reflexivity.
  - apply elem_of_spec_turns.
  - apply spec_turns_parts.
Qed.

Lemma sendMessage_history_witness :
  accepted Sample.with_key Sample.typed_thanks = true /\
  exists request,
    inFlight (sendMessage Sample.with_key (Sample.at_ms 2000) Sample.typed_thanks)
      !! 1 = Some request /\
    history request
    = [{| role := role_user; parts := [JsString.lit "Hello"] |};
       {| role := role_model; parts := [JsString.lit "Hi there"] |}].
Proof.
  split; [reflexivity |].
  destruct (sendMessage_history Sample.with_key (Sample.at_ms 2000)
              Sample.typed_thanks eq_refl) as (request & Hr & Hh & _).
  exists request. split; [exact Hr |]. rewrite Hh. reflexivity.
Defined.

(** ** Requests in flight *)

Section OneAtATime.

Variable env : Env.

Implicit Types (s : State) (e : Event) (c : Clock) (evs : list Event).

Lemma sendMessage_idle c s :
  idle_or_waiting s ->
  (accepted env s = true -> inFlight s = ∅) ->
  idle_or_waiting (sendMessage env c s).
Proof.
  intros Hinv Hfree. destruct (accepted env s) eqn:Ha.
  - right. destruct (sendMessage_inFlight env c s Ha) as [-> _].
    rewrite (Hfree eq_refl), insert_empty.
    do 2 eexists. split; [reflexivity |].
    unfold sendMessage. now rewrite Ha.
  - now rewrite sendMessage_rejected.
Qed.

Lemma settled_idle k o c s :
  idle_or_waiting s ->
  idle_or_waiting (step env s (Settled k o c)).
Proof.
  intros Hinv. simpl. destruct (inFlight s !! k) as [r|] eqn:Hk; [| assumption].
  left. destruct Hinv as [[He _] | (k' & r' & He & _)].
  - rewrite He, lookup_empty in Hk. discriminate.
  - rewrite He in Hk. apply lookup_singleton_Some in Hk as [-> _].
    destruct o as [[t|]|reason]; simpl; rewrite He, delete_singleton_eq; easy.
Qed.

Lemma step_serial s e :
  idle_or_waiting s ->
  (submits e && accepted env s = true -> inFlight s = ∅) ->
  idle_or_waiting (step env s e).
Proof.
  intros Hinv Hfree.
  destruct e as [| | | | | | c | key shiftKey c | k o c];
    try (simpl; unfold toggleListening; repeat case_match; exact Hinv).
  - apply sendMessage_idle; [assumption |]. intros Ha. apply Hfree.
    simpl. exact Ha.
  - simpl in *. unfold handleKeyPress.
    destruct (bool_decide _ && negb shiftKey); [| assumption].
    apply sendMessage_idle; assumption.
  - now apply settled_idle.
Qed.

Lemma run_serial evs s :
  idle_or_waiting s -> serial env s evs = true ->
  idle_or_waiting (run env s evs).
Proof.
  revert s. induction evs as [|e evs IH]; intros s Hinv Hser; [assumption |].
  simpl in Hser. apply andb_true_iff in Hser as [Hfree Hser].
  simpl. apply IH; [| assumption].
  apply step_serial; [assumption |].
  intros Hsub. rewrite Hsub in Hfree. simpl in Hfree.
  now apply bool_decide_eq_true in Hfree.
Qed.

Lemma mount_idle c d : idle_or_waiting (mount env c (initialState env d)).
Proof.
  left. unfold mount, speech_effect, key_effect.
  repeat case_match; simpl; easy.
Qed.

Lemma idle_or_waiting_one s :
  idle_or_waiting s ->
  size (inFlight s) <= 1 /\ (isTyping s = true <-> inFlight s <> ∅).
Proof.
  intros [[He Ht] | (k & r & He & Ht)]; rewrite He, Ht.
  - rewrite map_size_empty. split; [lia |]. split; [discriminate | congruence].
  - rewrite map_size_singleton. split; [lia |]. split; [| reflexivity].
    intros _. apply map_non_empty_singleton.
Qed.

End OneAtATime.

(** C6, as the code has it: [sendMessage] does not look at [isTyping] or at
    the requests in flight, so nothing holds a second submit back. In a
    session in which no submit gets past the guard while a request is in
    flight, at every point at most one request is in flight, and [isTyping]
    is true exactly while one is. *)
Theorem serial_session_one_request (env : Env) (d : Z) (c0 : Clock)
    (evs : list Event) :
  serial env (mount env c0 (initialState env d)) evs = true ->
  size (inFlight (session env d c0 evs)) <= 1 /\
  (isTyping (session env d c0 evs) = true <->
   inFlight (session env d c0 evs) <> ∅).
Proof.
  intros Hser. apply idle_or_waiting_one. unfold session.
  apply run_serial; [apply mount_idle | assumption].
Qed.

Lemma serial_session_one_request_witness :
  serial Sample.with_key (mount Sample.with_key (Sample.at_ms 5)
                            (initialState Sample.with_key 0))
    (Sample.hello_turn (JsString.lit " Hi there ")) = true /\
  size (inFlight (session Sample.with_key 0 (Sample.at_ms 5)
                    (Sample.hello_turn (JsString.lit " Hi there ")))) <= 1.
Proof.
  split; [reflexivity |].
  apply (serial_session_one_request Sample.with_key 0 (Sample.at_ms 5)
           (Sample.hello_turn (JsString.lit " Hi there "))).
  reflexivity.
Defined.

(** Counterexample to C6 as stated: after a second submit made while the first request
    is in flight, two requests are in flight; once the first of them
    settles, [isTyping] is false although the second is still in flight. *)
Lemma overlapping_submits :
  size (inFlight (session Sample.with_key 0 (Sample.at_ms 5) Sample.overlap)) = 2 /\
  ~ one_request_at_a_time
      (session Sample.with_key 0 (Sample.at_ms 5) Sample.overlap) /\
  let s := session Sample.with_key 0 (Sample.at_ms 5)
             (Sample.overlap
              ++ [Settled 0 (Fulfilled (Some (JsString.lit "A"))) (Sample.at_ms 1005)]) in
  isTyping s = false /\ size (inFlight s) = 1 /\ ~ one_request_at_a_time s.
Proof.
  split; [reflexivity |]. split.
  - intros [_ H]. vm_compute in H. lia.
  - split; [reflexivity |]. split; [reflexivity |].
    intros [H _]. assert (false = true) as Hf; [| discriminate Hf].
    apply H. intros He. apply (f_equal size) in He. vm_compute in He.
    discriminate He.
Qed.

(** ** Empty texts *)

Section EmptyText.

Variable env : Env.

Implicit Types (s : State) (e : Event) (c : Clock) (evs : list Event).

Lemma fixed_texts_nonempty :
  greeting_text <> [] /\ key_missing_text <> [] /\ error_text <> [].
Proof. repeat split; discriminate. Qed.

(** The guard lets an empty text through only with staged files, and
    these become the message's [files]. *)
Lemma newMessage_checked c s :
  accepted env s = true -> text_or_attachments (newMessage c s).
Proof.
  intros Ha Ht. apply accepted_spec in Ha as [_ Ha]. simpl in Ht.
  rewrite Ht in Ha. destruct Ha as [Ha | Ha]; [now destruct Ha |].
  simpl. destruct (attachedFiles s) as [|f fs]; [now destruct Ha |].
  simpl. eexists. split; [reflexivity | discriminate].
Qed.

Lemma sendMessage_checked c s :
  Forall text_or_attachments (messages s) ->
  Forall text_or_attachments (messages (sendMessage env c s)).
Proof.
  intros Hs. destruct (accepted env s) eqn:Ha.
  - rewrite sendMessage_messages by assumption.
    apply Forall_app. split; [assumption |].
    constructor; [now apply newMessage_checked | constructor].
  - now rewrite sendMessage_rejected.
Qed.

Lemma step_checked s e :
  answers_nonblank e = true ->
  Forall text_or_attachments (messages s) ->
  Forall text_or_attachments (messages (step env s e)).
Proof.
  intros He Hs.
  destruct e as [| | | | | | c | key shiftKey c | k o c];
    try (simpl; unfold toggleListening; repeat case_match; exact Hs).
  - now apply sendMessage_checked.
  - simpl. unfold handleKeyPress.
    destruct (_ && _); [now apply sendMessage_checked | assumption].
  - simpl. destruct (inFlight s !! k); [| assumption].
    destruct o as [[t|]|reason]; simpl; apply Forall_app; (split; [assumption |]);
      (constructor; [| constructor]); intros Ht; simpl in *.
    + rewrite Ht in He. discriminate.
    + discriminate.
    + discriminate.
Qed.

Lemma run_checked evs s :
  Forall (fun e => answers_nonblank e = true) evs ->
  Forall text_or_attachments (messages s) ->
  Forall text_or_attachments (messages (run env s evs)).
Proof.
  revert s. induction evs as [|e evs IH]; intros s Hev Hs; [assumption |].
  inversion Hev as [|? ? He Hrest]; subst. simpl.
  apply IH; [assumption |]. now apply step_checked.
Qed.

Lemma mount_checked c d :
  Forall text_or_attachments (messages (mount env c (initialState env d))).
Proof.
  unfold mount, speech_effect, key_effect.
  repeat case_match; simpl; repeat constructor; discriminate.
Qed.

End EmptyText.

(** C8, as the code has it: the guard of [sendMessage] checks the user's
    text, and nothing checks the text that comes back. In a session in
    which the endpoint never answers with a blank text, every message in
    the store whose text is empty carries attachments. *)
Theorem empty_text_has_attachments (env : Env) (d : Z) (c0 : Clock)
    (evs : list Event) :
  Forall (fun e => answers_nonblank e = true) evs ->
  forall m, m ∈ messages (session env d c0 evs) ->
            text m = [] -> exists fs, files m = Some fs /\ fs <> [].
Proof.
  intros Hev m Hm.
  assert (Forall text_or_attachments (messages (session env d c0 evs))) as Hall.
  { unfold session. apply run_checked; [assumption | apply mount_checked]. }
  rewrite Forall_forall in Hall. exact (Hall m Hm).
Qed.

Lemma empty_text_has_attachments_witness :
  Forall (fun e => answers_nonblank e = true) Sample.file_turn /\
  text Sample.file_message = [] /\
  exists fs, files Sample.file_message = Some fs /\ fs <> [].
Proof.
  split; [repeat constructor |]. split; [reflexivity |].
  apply (empty_text_has_attachments Sample.with_key 0 (Sample.at_ms 5)
           Sample.file_turn).
  - repeat constructor.
  - apply list_elem_of_further, list_elem_of_here.
  - reflexivity.
Defined.

(** Counterexample to C8 as stated: when the endpoint answers "Hello" with a single
    space, the bot message appended for it has an empty text and no
    attachments. *)
Lemma blank_answer_stored :
  let s := session Sample.with_key 0 (Sample.at_ms 5)
             (Sample.hello_turn (JsString.lit " ")) in
  exists m, m ∈ messages s /\ sender m = bot /\ text m = [] /\ files m = None /\
            ~ text_or_attachments m.
Proof.
  exists {| id := 1006; text := []; sender := bot; timestamp := 1005;
            files := None |}.
  split; [do 2 apply list_elem_of_further; apply list_elem_of_here |].
  repeat split. intros H. destruct (H eq_refl) as (fs & Hfs & _).
  discriminate Hfs.
Qed.

(** ** Message ids *)

(** Within one turn the offset does its work: on a clock that does not go
    back, the answer's id differs from the id of the message it answers. *)
Lemma turn_ids_differ (c c' : Clock) (s : State) (t : jsstring) :
  (Date_now c <= Date_now c')%Z ->
  id (newMessage c s) <> id (botResponse c' t) /\
  id (newMessage c s) <> id (errorResponse c').
Proof. simpl. lia. Qed.

(** C9 fails on the code: an answer that arrives at 1005 gets the id 1006,
    and so does the user message of a submit made at 1006. The ids in the
    store are then not pairwise distinct. *)
Theorem message_ids_collide :
  let s := session Sample.with_key 0 (Sample.at_ms 5) Sample.quick_reply in
  id <$> messages s = [1; 1000; 1006; 1006]%Z /\
  sender <$> messages s = [bot; user; bot; user] /\
  ~ NoDup (id <$> messages s).
Proof.
  split; [reflexivity |]. split; [reflexivity |].
  intros H. vm_compute in H.
  apply NoDup_cons_1_2, NoDup_cons_1_2, NoDup_cons_1_1 in H.
  apply H, list_elem_of_here.
Qed.

(** ** Dictation without a recognition engine *)

(** Without a recognition object the optional calls of [toggleListening]
    do nothing, and the flag is flipped all the same. *)
Lemma toggleListening_no_recognition (s : State) :
  recognitionRef s = None ->
  toggleListening s = setIsListening (negb (isListening s)) s.
Proof.
  intros H. unfold toggleListening, invoke. rewrite H.
  destruct s as [ms it il af ty rr fl n cs]. simpl in *. subst rr.
  now destruct il.
Qed.

(** C10 fails on the code: on a platform without speech recognition
    [recognitionRef] stays empty and no engine is started, yet a click on
    the microphone button sets [isListening], and the next click clears it
    again. *)
Theorem toggleListening_without_engine :
  let s := session Sample.no_speech 0 (Sample.at_ms 5) [] in
  recognitionRef s = None /\
  isListening s = false /\
  isListening (step Sample.no_speech s ClickMic) = true /\
  recognitionRef (step Sample.no_speech s ClickMic) = None /\
  step Sample.no_speech s ClickMic <> s /\
  isListening (run Sample.no_speech s [ClickMic; ClickMic]) = false.
Proof. repeat split. intros H. discriminate (f_equal isListening H). Qed.

(** ** What an event can do *)

Section Steps.

Variable env : Env.

Implicit Types (s : State) (e : Event) (c : Clock) (evs : list Event).

(** Outside the store, the flag and the requests a submit clears the input
    and the staged files and touches nothing else. *)
Lemma sendMessage_fields c s :
  accepted env s = true ->
  inputText (sendMessage env c s) = [] /\
  attachedFiles (sendMessage env c s) = [] /\
  isTyping (sendMessage env c s) = true /\
  isListening (sendMessage env c s) = isListening s /\
  recognitionRef (sendMessage env c s) = recognitionRef s /\
  console (sendMessage env c s) = console s.
Proof. intros H. unfold sendMessage. now rewrite H. Qed.

Lemma sendMessage_settled_fields o c s :
  isTyping (sendMessage_settled o c s) = false /\
  inFlight (sendMessage_settled o c s) = inFlight s /\
  issued (sendMessage_settled o c s) = issued s /\
  inputText (sendMessage_settled o c s) = inputText s /\
  attachedFiles (sendMessage_settled o c s) = attachedFiles s /\
  isListening (sendMessage_settled o c s) = isListening s /\
  recognitionRef (sendMessage_settled o c s) = recognitionRef s.
Proof. now destruct o as [[t|]|reason]. Qed.

(** Every step is of one of the three kinds. *)
Lemma step_kind s e : StepKind env s e.
Proof.
  assert (forall c e', clock_of e' = Some c -> submits e' = true ->
                       fails e' = false ->
                       step env s e' = sendMessage env c s -> StepKind env s e')
    as Hsend.
  { intros c e' Hc Hs Hf He. destruct (accepted env s) eqn:Ha.
    - now apply (step_submit env s e' c).
    - rewrite sendMessage_rejected in He by assumption.
      apply step_quiet; rewrite ?He; auto. }
  destruct e as [| | | | | | c | key shiftKey c | k o c].
  1-6: apply step_quiet; simpl; unfold toggleListening; repeat case_match; auto.
  - now apply (Hsend c).
  - destruct (bool_decide (key = JsString.lit "Enter") && negb shiftKey) eqn:Hk.
    + apply (Hsend c); simpl; unfold handleKeyPress; rewrite ?Hk; reflexivity.
    + apply step_quiet; simpl; unfold handleKeyPress; rewrite ?Hk; auto.
  - destruct (inFlight s !! k) as [r|] eqn:Hr.
    + apply (step_settle env s _ k o c r); auto. simpl. now rewrite Hr.
    + apply step_quiet; simpl; rewrite ?Hr; auto. right. eauto.
Qed.

(** A property of the mounted component that every event keeps holds
    throughout every session. *)
Lemma session_invariant (P : State -> Prop) d c0 :
  P (mount env c0 (initialState env d)) ->
  (forall s e, P s -> P (step env s e)) ->
  forall evs, P (session env d c0 evs).
Proof.
  intros H0 Hstep evs. unfold session.
  generalize dependent (mount env c0 (initialState env d)).
  induction evs as [|e evs IH]; intros s Hs; [assumption |].
  simpl. apply IH, Hstep, Hs.
Qed.

Lemma mount_fields c d :
  inFlight (mount env c (initialState env d)) = ∅ /\
  issued (mount env c (initialState env d)) = 0 /\
  isTyping (mount env c (initialState env d)) = false /\
  isListening (mount env c (initialState env d)) = false /\
  inputText (mount env c (initialState env d)) = [] /\
  attachedFiles (mount env c (initialState env d)) = [] /\
  console (mount env c (initialState env d))
  = (if key_missing env then [{| label := fatal_label; detail := None |}] else []) /\
  messages (mount env c (initialState env d))
  = greeting d :: (if key_missing env then [key_missing_message c] else []).
Proof.
  unfold mount, speech_effect, key_effect.
  unfold initialState.
  destruct (key_missing env), (SpeechRecognition env); simpl; repeat split.
Qed.

End Steps.

(** ** Submitting twice *)

(** X1: a second call to [sendMessage] right after a first one does
    nothing: the first either returned at the guard, or it cleared the input
    text and the staged files, and then the second returns at the guard. A
    double click or a repeated Enter sends one message. *)
Theorem sendMessage_twice (env : Env) (c c' : Clock) (s : State) :
  sendMessage env c' (sendMessage env c s) = sendMessage env c s.
Proof.
  destruct (accepted env s) eqn:Ha.
  - apply sendMessage_rejected, rejected_spec. right.
    destruct (sendMessage_fields env c s Ha) as (-> & -> & _). easy.
  - rewrite (sendMessage_rejected env c s Ha).
    now apply sendMessage_rejected.
Qed.

(** ** The typing indicator *)

(** X2: at every point of every session, overlapping submits included,
    [isTyping] is true only while some request is in flight: the indicator
    never stays on with nothing pending. *)
Theorem typing_needs_request (env : Env) (d : Z) (c0 : Clock)
    (evs : list Event) :
  isTyping (session env d c0 evs) = true ->
  inFlight (session env d c0 evs) <> ∅.
Proof.
  apply (session_invariant env
           (fun s => isTyping s = true -> inFlight s <> ∅)).
  - destruct (mount_fields env c0 d) as (_ & _ & -> & _). discriminate.
  - intros s e IH. destruct (step_kind env s e) as
        [Hm Ht Hf _ _ _ | c _ _ Ha He | k o c r _ _ He].
    + now rewrite Ht, Hf.
    + rewrite He. destruct (sendMessage_inFlight env c s Ha) as [-> _].
      intros _. apply insert_non_empty.
    + rewrite He.
      destruct (sendMessage_settled_fields o c
                  (setInFlight (delete k (inFlight s)) (issued s) s)) as [-> _].
      discriminate.
Qed.

Lemma typing_needs_request_witness :
  isTyping (session Sample.with_key 0 (Sample.at_ms 5) Sample.overlap) = true /\
  inFlight (session Sample.with_key 0 (Sample.at_ms 5) Sample.overlap) <> ∅.
Proof.
  split; [reflexivity |].
  apply (typing_needs_request Sample.with_key 0 (Sample.at_ms 5) Sample.overlap).
  reflexivity.
Defined.

(** ** Counting turns *)

Section Accounting.

Variable env : Env.

Implicit Types (s : State) (e : Event) (c : Clock) (evs : list Event).

Lemma sendMessage_settled_bot o c s :
  exists m, messages (sendMessage_settled o c s) = messages s ++ [m] /\
            sender m = bot.
Proof. destruct o as [[t|]|reason]; simpl; eauto. Qed.

Lemma size_delete_in_flight (m : gmap nat Request) k r :
  m !! k = Some r -> size m = S (size (delete k m)).
Proof.
  intros H. rewrite <- (insert_delete_id m k r H) at 1.
  apply map_size_insert_None, lookup_delete_eq.
Qed.

Lemma step_balanced s e : balanced env s -> balanced env (step env s e).
Proof.
  intros (Hfresh & Hu & Hb).
  destruct (step_kind env s e) as
      [Hm _ Hf Hi _ _ | c _ _ Ha He | k o c r _ Hr He]; unfold balanced.
  - now rewrite Hm, Hf, Hi.
  - rewrite He, sendMessage_messages by assumption.
    destruct (sendMessage_inFlight env c s Ha) as [-> ->].
    rewrite !List.filter_app, !length_app. simpl.
    assert (inFlight s !! issued s = None) as Hnone.
    { destruct (inFlight s !! issued s) eqn:Hl; [| reflexivity].
      assert (issued s < issued s) by (apply Hfresh; rewrite Hl; eauto). lia. }
    rewrite map_size_insert_None by assumption.
    split; [| simpl; lia].
    intros k' Hk'. apply lookup_insert_is_Some in Hk' as [<- | [_ Hk']];
      [lia |]. specialize (Hfresh _ Hk'). lia.
  - rewrite He.
    destruct (sendMessage_settled_bot o c
                (setInFlight (delete k (inFlight s)) (issued s) s))
      as (m & -> & Hm).
    destruct (sendMessage_settled_fields o c
                (setInFlight (delete k (inFlight s)) (issued s) s))
      as (_ & -> & -> & _).
    assert (from_user m = false) as Hfu by (unfold from_user; now rewrite Hm).
    assert (from_bot m = true) as Hfb by (unfold from_bot; now rewrite Hfu).
    cbn [inFlight issued setInFlight].
    rewrite !List.filter_app, !length_app. cbn [List.filter].
    rewrite Hfu, Hfb. simpl.
    rewrite (size_delete_in_flight _ _ _ Hr) in Hb.
    split; [| lia].
    intros k' Hk'. apply lookup_delete_is_Some in Hk' as [_ Hk'].
    now apply Hfresh.
Qed.

Lemma mount_balanced c d : balanced env (mount env c (initialState env d)).
Proof.
  unfold balanced.
  destruct (mount_fields env c d) as (-> & -> & _ & _ & _ & _ & _ & ->).
  split; [intros k [r Hr]; rewrite lookup_empty in Hr; discriminate |].
  rewrite map_size_empty. now destruct (key_missing env).
Qed.

End Accounting.

(** X3: at every point of every session there is one user message in the
    store for each request that was issued, and each request issued is
    either still in flight or has put exactly one bot message in the store:
    besides the bot messages of the mount (the greeting, and the notice of
    a missing key), bot messages and requests in flight together are as
    many as requests issued. *)
Theorem turn_accounting (env : Env) (d : Z) (c0 : Clock) (evs : list Event) :
  length (List.filter from_user (messages (session env d c0 evs)))
  = issued (session env d c0 evs) /\
  length (List.filter from_bot (messages (session env d c0 evs)))
  + size (inFlight (session env d c0 evs))
  = issued (session env d c0 evs) + (if key_missing env then 2 else 1).
Proof.
  apply (session_invariant env (balanced env)).
  - apply mount_balanced.
  - apply step_balanced.
Qed.

(** X4: a response that carries no text ends the turn like a failure:
    [result.text.trim()] throws inside the [try], so the bot message with
    the fixed error text is appended, the [TypeError] is written to the
    console, and [isTyping] is false afterwards. *)
Theorem response_without_text (env : Env) (c : Clock) (s : State)
    (during : list Event) (c' : Clock) :
  accepted env s = true ->
  Forall (fun e => settles (issued s) e = false) during ->
  let s2 := run env (sendMessage env c s) during in
  let s3 := step env s2 (Settled (issued s) (Fulfilled None) c') in
  messages s3 = messages s2 ++ [errorResponse c'] /\
  console s3
  = console s2 ++ [{| label := api_error_label; detail := Some TypeError |}] /\
  isTyping s3 = false /\
  inFlight s3 = delete (issued s) (inFlight s2).
Proof.
  intros Ha Hev s2 s3.
  destruct (turn_open env c s during Ha Hev) as (others & _ & _ & [r Hr]).
  subst s3 s2. simpl. now rewrite Hr.
Qed.

Lemma response_without_text_witness :
  accepted Sample.with_key Sample.typed_hello = true /\
  messages
    (step Sample.with_key
       (sendMessage Sample.with_key (Sample.at_ms 1000) Sample.typed_hello)
       (Settled 0 (Fulfilled None) (Sample.at_ms 1005)))
  = messages (sendMessage Sample.with_key (Sample.at_ms 1000) Sample.typed_hello)
    ++ [errorResponse (Sample.at_ms 1005)].
Proof.
  split; [reflexivity |].
  apply (response_without_text Sample.with_key (Sample.at_ms 1000)
           Sample.typed_hello [] (Sample.at_ms 1005) eq_refl (List.Forall_nil _)).
Defined.

(** ** The console *)

Lemma step_console (env : Env) (s : State) (e : Event) :
  fails e = false -> console (step env s e) = console s.
Proof.
  intros Hf.
  destruct (step_kind env s e) as
      [_ _ _ _ Hc _ | c _ _ Ha He | k o c r -> _ He].
  - exact Hc.
  - rewrite He. now destruct (sendMessage_fields env c s Ha) as (_ & _ & _ & _ & _ & ->).
  - rewrite He. destruct o as [[t|]|reason]; simpl in *; congruence.
Qed.

(** X5: the component writes to the console only when a request ends in
    the [catch] block. In a session in which no request is rejected or
    answered without a text, the console holds what loading the module
    wrote: the fatal line when the key is missing, nothing otherwise. *)
Theorem console_quiet (env : Env) (d : Z) (c0 : Clock) (evs : list Event) :
  Forall (fun e => fails e = false) evs ->
  console (session env d c0 evs)
  = if key_missing env then [{| label := fatal_label; detail := None |}] else [].
Proof.
  intros Hev. unfold session.
  destruct (mount_fields env c0 d) as (_ & _ & _ & _ & _ & _ & <- & _).
  generalize dependent (mount env c0 (initialState env d)).
  induction Hev as [|e evs He _ IH]; intros s; [reflexivity |].
  simpl. rewrite IH. now apply step_console.
Qed.

Lemma console_quiet_witness :
  Forall (fun e => fails e = false) (Sample.hello_turn (JsString.lit "Hi")) /\
  console (session Sample.with_key 0 (Sample.at_ms 5)
             (Sample.hello_turn (JsString.lit "Hi"))) = [].
Proof.
  split; [repeat constructor |].
  apply (console_quiet Sample.with_key 0 (Sample.at_ms 5)
           (Sample.hello_turn (JsString.lit "Hi"))).
  repeat constructor.
Defined.

(** ** Events outside a turn *)




(** ** Dictation *)

Section Dictation.

Variable env : Env.

Implicit Types (s : State) (e : Event) (c : Clock) (evs : list Event).

Lemma stops_follow_starts_start b (cs : list EngineCall) :
  stops_follow_starts b (cs ++ [start]) = stops_follow_starts b cs.
Proof.
  revert b. induction cs as [|[|] cs IH]; intros b; simpl;
    rewrite ?IH; reflexivity.
Qed.

Lemma stops_follow_starts_stop b (cs : list EngineCall) :
  last cs = Some start ->
  stops_follow_starts b (cs ++ [stop]) = stops_follow_starts b cs.
Proof.
  revert b. induction cs as [|x cs IH]; intros b Hl; [discriminate |].
  destruct cs as [|y cs].
  - injection Hl as ->. reflexivity.
  - change (last (x :: y :: cs)) with (last (y :: cs)) in Hl.
    remember (y :: cs) as l.
    destruct x; simpl; rewrite IH by assumption; reflexivity.
Qed.

Lemma sendMessage_engine c s :
  recognitionRef (sendMessage env c s) = recognitionRef s /\
  isListening (sendMessage env c s) = isListening s.
Proof.
  destruct (accepted env s) eqn:Ha.
  - now destruct (sendMessage_fields env c s Ha) as (_ & _ & _ & -> & -> & _).
  - now rewrite sendMessage_rejected.
Qed.

(** Only the microphone button reaches the recognition object, and only it
    can set [isListening]. *)
Lemma step_engine s e :
  e = ClickMic \/
  (recognitionRef (step env s e) = recognitionRef s /\
   (isListening (step env s e) = isListening s \/
    isListening (step env s e) = false)).
Proof.
  assert (forall s', recognitionRef s' = recognitionRef s ->
                     isListening s' = isListening s \/ isListening s' = false ->
                     recognitionRef s' = recognitionRef s /\
                     (isListening s' = isListening s \/ isListening s' = false))
    as Hkeep by auto.
  destruct e as [| | | | | | c | key shiftKey c | k o c]; [| now left | ..];
    right; simpl.
  - apply Hkeep; auto.
  - destruct (recognitionRef s) eqn:Hrr; simpl; rewrite ?Hrr; auto.
  - destruct (recognitionRef s) eqn:Hrr; simpl; rewrite ?Hrr; auto.
  - apply Hkeep; auto.
  - apply Hkeep; auto.
  - destruct (sendMessage_engine c s) as [Hr Hl]. apply Hkeep; auto.
  - unfold handleKeyPress.
    destruct (bool_decide (key = JsString.lit "Enter") && negb shiftKey);
      [| apply Hkeep; auto].
    destruct (sendMessage_engine c s) as [Hr Hl]. apply Hkeep; auto.
  - destruct (inFlight s !! k); [| apply Hkeep; auto].
    destruct (sendMessage_settled_fields o c
                (setInFlight (delete k (inFlight s)) (issued s) s))
      as (_ & _ & _ & _ & _ & Hl & Hr). apply Hkeep; auto.
Qed.

Lemma step_engine_ok s e : engine_ok env s -> engine_ok env (step env s e).
Proof.
  intros Hok. destruct (step_engine s e) as [-> | [Hr Hl]].
  - unfold engine_ok in *. simpl. unfold toggleListening, invoke.
    destruct (recognitionRef s) as [r|] eqn:Hr, (isListening s) eqn:Hl;
      simpl; try assumption.
    + destruct Hok as (Hp & Hc & Hi & Hw & Hlast).
      rewrite stops_follow_starts_stop by auto. easy.
    + destruct Hok as (Hp & Hc & Hi & Hw & Hlast).
      rewrite stops_follow_starts_start, last_snoc. easy.
  - unfold engine_ok in *. rewrite Hr.
    destruct (recognitionRef s) as [r|]; [| assumption].
    destruct Hok as (Hp & Hc & Hi & Hw & Hlast).
    repeat split; try assumption.
    destruct Hl as [-> | ->]; [assumption | discriminate].
Qed.

Lemma mount_engine_ok c d : engine_ok env (mount env c (initialState env d)).
Proof.
  unfold engine_ok, mount, speech_effect, key_effect.
  destruct (SpeechRecognition env), (key_missing env && _); simpl;
    try reflexivity; repeat split; discriminate.
Qed.

Lemma session_engine_ok d c0 evs : engine_ok env (session env d c0 evs).
Proof.
  apply (session_invariant env (engine_ok env)).
  - apply mount_engine_ok.
  - apply step_engine_ok.
Qed.

Lemma recognition_present d c0 evs :
  SpeechRecognition env = true ->
  exists r, recognitionRef (session env d c0 evs) = Some r.
Proof.
  intros Hp. pose proof (session_engine_ok d c0 evs) as Hok.
  unfold engine_ok in Hok.
  destruct (recognitionRef (session env d c0 evs)); [eauto | congruence].
Qed.

End Dictation.

(** X7: whether there is a recognition object is settled at mount and
    never changes: throughout every session there is one exactly when the
    platform has speech recognition, and it is set to continuous
    recognition with interim results. *)
Theorem recognition_fixed (env : Env) (d : Z) (c0 : Clock) (evs : list Event) :
  (is_Some (recognitionRef (session env d c0 evs))
   <-> SpeechRecognition env = true) /\
  forall r, recognitionRef (session env d c0 evs) = Some r ->
            continuous r = true /\ interimResults r = true.
Proof.
  pose proof (session_engine_ok env d c0 evs) as Hok. unfold engine_ok in Hok.
  destruct (recognitionRef (session env d c0 evs)) as [r|].
  - destruct Hok as (Hp & Hc & Hi & _). split.
    + split; eauto.
    + now intros r' [= <-].
  - split; [| discriminate]. rewrite Hok. split.
    + intros [x Hx]. discriminate.
    + discriminate.
Qed.

(** X8: the component drives the recognition object in pairs: throughout
    every session each [stop] it has called comes right after a [start],
    the first call is a [start], and while [isListening] is true the last
    call made was a [start]. *)
Theorem stop_follows_start (env : Env) (d : Z) (c0 : Clock)
    (evs : list Event) (r : Recognition) :
  recognitionRef (session env d c0 evs) = Some r ->
  stops_follow_starts false (calls r) = true /\
  (isListening (session env d c0 evs) = true -> last (calls r) = Some start).
Proof.
  intros Hr. pose proof (session_engine_ok env d c0 evs) as Hok.
  unfold engine_ok in Hok. rewrite Hr in Hok. easy.
Qed.

Lemma stop_follows_start_witness :
  recognitionRef (session Sample.with_key 0 (Sample.at_ms 5) Sample.dictation)
  = Some {| continuous := true; interimResults := true; calls := [start; stop] |} /\
  stops_follow_starts false [start; stop] = true.
Proof.
  split; [reflexivity |].
  apply (stop_follows_start Sample.with_key 0 (Sample.at_ms 5) Sample.dictation
           {| continuous := true; interimResults := true; calls := [start; stop] |}).
  reflexivity.
Defined.

(** X9: on a platform with speech recognition a result event, at any point
    of a session, replaces the input text by the top transcripts of all
    results joined in order, and changes nothing else; what was typed or
    dictated before is dropped, so of two result events in a row only the
    second shows. *)
Theorem dictation_replaces_input (env : Env) (d : Z) (c0 : Clock)
    (evs : list Event) (earlier results : list SpeechResult) :
  SpeechRecognition env = true ->
  step env (session env d c0 evs) (SpeechResults results)
  = setInputText (concat (transcript <$> results)) (session env d c0 evs) /\
  run env (session env d c0 evs) [SpeechResults earlier; SpeechResults results]
  = step env (session env d c0 evs) (SpeechResults results).
Proof.
  intros Hp.
  destruct (recognition_present env d c0 evs Hp) as [r Hr].
  simpl. rewrite Hr. simpl. rewrite Hr. easy.
Qed.

Lemma dictation_replaces_input_witness :
  SpeechRecognition Sample.with_key = true /\
  inputText (session Sample.with_key 0 (Sample.at_ms 5) (take 3 Sample.dictation))
  = JsString.lit "hello world".
Proof.
  split; [reflexivity |].
  change (inputText
            (run Sample.with_key
               (session Sample.with_key 0 (Sample.at_ms 5) [ClickMic])
               [SpeechResults
                  [{| transcript := JsString.lit "hel"; alternatives := [] |}];
                SpeechResults
                  [{| transcript := JsString.lit "hello "; alternatives := [] |};
                   {| transcript := JsString.lit "world"; alternatives := [] |}]])
          = JsString.lit "hello world").
  destruct (dictation_replaces_input Sample.with_key 0 (Sample.at_ms 5) [ClickMic]
              [{| transcript := JsString.lit "hel"; alternatives := [] |}]
              [{| transcript := JsString.lit "hello "; alternatives := [] |};
               {| transcript := JsString.lit "world"; alternatives := [] |}]
              eq_refl) as [H1 H2].
  rewrite H2, H1. reflexivity.
Defined.

(** ** Staged files *)

Section Staging.

Implicit Types (s : State) (fs : list File.t).

Lemma filter_index_ext {A} (p q : nat -> bool) i (l : list A) :
  (forall j, i <= j -> p j = q j) ->
  filter_index p i l = filter_index q i l.
Proof.
  revert i. induction l as [|x l IH]; intros i H; [reflexivity |].
  simpl. rewrite (H i) by lia. rewrite (IH (S i)); [reflexivity |].
  intros j Hj. apply H. lia.
Qed.

Lemma filter_index_all {A} (p : nat -> bool) i (l : list A) :
  (forall j, i <= j -> p j = true) -> filter_index p i l = l.
Proof.
  revert i. induction l as [|x l IH]; intros i H; [reflexivity |].
  simpl. rewrite (H i) by lia. rewrite (IH (S i)); [reflexivity |].
  intros j Hj. apply H. lia.
Qed.

(** Keeping the indices other than [i + k], counted from [i], drops the
    entry at position [k]. *)
Lemma filter_index_drops {A} i k (l : list A) :
  filter_index (fun j => negb (j =? i + k)) i l = take k l ++ drop (S k) l.
Proof.
  revert i k. induction l as [|x l IH]; intros i k.
  - now destruct k.
  - simpl. destruct k as [|k].
    + replace (i =? i + 0) with true by (symmetry; apply Nat.eqb_eq; lia).
      simpl. rewrite drop_0. apply filter_index_all.
      intros j Hj. apply negb_true_iff, Nat.eqb_neq. lia.
    + replace (i =? i + S k) with false by (symmetry; apply Nat.eqb_neq; lia).
      simpl. f_equal. rewrite <- (IH (S i) k).
      apply filter_index_ext. intros j _. now rewrite Nat.add_succ_r.
Qed.

Lemma removeFile_files index s :
  attachedFiles (removeFile index s)
  = take index (attachedFiles s) ++ drop (S index) (attachedFiles s).
Proof. simpl. apply (filter_index_drops 0 index). Qed.


End Staging.

(** X10: [removeFile index] takes out the staged file at position [index]
    and nothing else: the files before it and the files after it stay, in
    their order; the count goes down by one when [index] is in range, and
    the rest of the state is untouched. *)
Theorem removeFile_removes_one (index : nat) (s : State) :
  attachedFiles (removeFile index s)
  = take index (attachedFiles s) ++ drop (S index) (attachedFiles s) /\
  length (attachedFiles (removeFile index s))
  = (if index <? length (attachedFiles s)
     then length (attachedFiles s) - 1 else length (attachedFiles s)) /\
  removeFile index s
  = setAttachedFiles (fun fs => take index fs ++ drop (S index) fs) s.
Proof.
  pose proof (removeFile_files index s) as H.
  split; [exact H |]. split.
  - rewrite H, length_app, length_take, length_drop.
    destruct (Nat.ltb_spec index (length (attachedFiles s))); lia.
  - unfold removeFile, setAttachedFiles in *. simpl in H. now rewrite H.
Qed.

(** X11: [removeFile] with an index at or past the end of the staged list
    leaves the state as it is. *)
Theorem removeFile_out_of_range (index : nat) (s : State) :
  length (attachedFiles s) <= index -> removeFile index s = s.
Proof.
  intros Hi. pose proof (removeFile_files index s) as H.
  rewrite take_ge, drop_ge, app_nil_r in H by lia.
  unfold removeFile, setAttachedFiles in *. simpl in H. rewrite H.
  now destruct s.
Qed.

Lemma removeFile_out_of_range_witness :
  length (attachedFiles Sample.two_staged) <= 2 /\
  removeFile 2 Sample.two_staged = Sample.two_staged.
Proof.
  split; [simpl; lia |].
  apply (removeFile_out_of_range 2 Sample.two_staged). simpl. lia.
Defined.


(** ** What reaches the endpoint *)

Lemma spec_turns_spoken (l l' : list Message) :
  spoken <$> l = spoken <$> l' -> spec_turns l = spec_turns l'.
Proof.
  revert l'. induction l as [|m l IH]; intros [|m' l'] H; try discriminate;
    [reflexivity |].
  rewrite !fmap_cons in H. injection H as Hs Ht Hl.
  simpl. unfold spec_content. rewrite Hs, Ht, (IH l' Hl). reflexivity.
Qed.

Lemma chatHistory_spoken (l l' : list Message) :
  spoken <$> l = spoken <$> l' -> chatHistory l = chatHistory l'.
Proof.
  intros H. rewrite !chatHistory_spec.
  destruct l as [|g l], l' as [|g' l']; try discriminate; [reflexivity |].
  rewrite !fmap_cons in H. injection H as _ _ H.
  now apply spec_turns_spoken.
Qed.

(** X13: the request a submit issues is determined by the senders and
    texts of the messages in the store and by the input text. Staged files,
    the files of earlier messages, ids, timestamps and the clock have no
    influence on it: no attachment ever reaches the endpoint. *)
Theorem attachments_not_sent (env : Env) (c c' : Clock) (s s' : State) :
  accepted env s = true ->
  accepted env s' = true ->
  inputText s = inputText s' ->
  spoken <$> messages s = spoken <$> messages s' ->
  inFlight (sendMessage env c s) !! issued s
  = inFlight (sendMessage env c' s') !! issued s'.
Proof.
  intros Ha Ha' Hi Hm.
  destruct (sendMessage_inFlight env c s Ha) as [-> _].
  destruct (sendMessage_inFlight env c' s' Ha') as [-> _].
  rewrite !lookup_insert_eq, Hi, (chatHistory_spoken _ _ Hm). reflexivity.
Qed.

Lemma attachments_not_sent_witness :
  accepted Sample.with_key Sample.typed_hello = true /\
  accepted Sample.with_key
    (handleFileAttachment [Sample.notes] Sample.typed_hello) = true /\
  inFlight (sendMessage Sample.with_key (Sample.at_ms 1000) Sample.typed_hello)
    !! 0
  = inFlight (sendMessage Sample.with_key (Sample.at_ms 2000)
                (handleFileAttachment [Sample.notes] Sample.typed_hello)) !! 0.
Proof.
  split; [reflexivity |]. split; [reflexivity |].
  apply (attachments_not_sent Sample.with_key (Sample.at_ms 1000)
           (Sample.at_ms 2000) Sample.typed_hello
           (handleFileAttachment [Sample.notes] Sample.typed_hello));
    reflexivity.
Defined.

(** ** The send button *)

Lemma accepted_button (env : Env) (s : State) :
  accepted env s = negb (key_missing env) && negb (send_disabled s).
Proof.
  unfold accepted, send_disabled, ai, key_missing.
  destruct (GEMINI_API_KEY env) as [[|a k]|]; simpl;
    destruct (JsString.truthy (JsString.trim (inputText s))),
      (length (attachedFiles s) =? 0); reflexivity.
Qed.

(** X14: on a component with a key, whenever the send button is enabled a
    click on it appends the user's message, puts exactly one more request
    in flight, and leaves the button disabled. *)
Theorem enabled_click_sends (env : Env) (d : Z) (c0 : Clock)
    (evs : list Event) (c : Clock) :
  key_missing env = false ->
  send_disabled (session env d c0 evs) = false ->
  messages (step env (session env d c0 evs) (ClickSend c))
  = messages (session env d c0 evs) ++ [newMessage c (session env d c0 evs)] /\
  size (inFlight (step env (session env d c0 evs) (ClickSend c)))
  = S (size (inFlight (session env d c0 evs))) /\
  send_disabled (step env (session env d c0 evs) (ClickSend c)) = true.
Proof.
  intros Hk Hd. set (s := session env d c0 evs) in *.
  assert (accepted env s = true) as Ha by (now rewrite accepted_button, Hk, Hd).
  simpl. split; [now apply sendMessage_messages |].
  destruct (sendMessage_inFlight env c s Ha) as [-> _].
  destruct (sendMessage_fields env c s Ha) as (Hi & Hf & _).
  split; [| unfold send_disabled; now rewrite Hi, Hf].
  apply map_size_insert_None.
  destruct (inFlight s !! issued s) eqn:Hl; [| reflexivity].
  assert (balanced env s) as (Hfresh & _).
  { apply (session_invariant env (balanced env));
      [apply mount_balanced | apply step_balanced]. }
  assert (issued s < issued s) by (apply Hfresh; rewrite Hl; eauto). lia.
Qed.

Lemma enabled_click_sends_witness :
  key_missing Sample.with_key = false /\
  send_disabled Sample.typed_hello = false /\
  send_disabled
    (step Sample.with_key Sample.typed_hello (ClickSend (Sample.at_ms 1000)))
  = true.
Proof.
  split; [reflexivity |]. split; [reflexivity |].
  apply (enabled_click_sends Sample.with_key 0 (Sample.at_ms 5)
           [Change (JsString.lit "Hello")] (Sample.at_ms 1000));
    reflexivity.
Defined.

(** ** Taking turns *)

Section Alternation.

Variable env : Env.

Implicit Types (s : State) (e : Event) (c : Clock) (evs : list Event).

Lemma turns_snoc n : turns n ++ [user; bot] = turns (S n).
Proof. induction n as [|n IH]; [reflexivity |]. simpl in *. now rewrite IH. Qed.

Lemma step_alternates s e :
  idle_or_waiting s ->
  (submits e && accepted env s = true -> inFlight s = ∅) ->
  (exists n, sender <$> messages s
             = bot :: turns n ++ (if isTyping s then [user] else [])) ->
  exists n, sender <$> messages (step env s e)
            = bot :: turns n ++ (if isTyping (step env s e) then [user] else []).
Proof.
  intros Hinv Hfree [n Hn].
  destruct (step_kind env s e) as
      [Hm Ht _ _ _ _ | c _ Hs Ha He | k o c r _ Hr He].
  - exists n. now rewrite Hm, Ht.
  - assert (isTyping s = false) as Hidle.
    { destruct Hinv as [[_ Ht] | (k & r & Hk & _)]; [assumption |].
      rewrite Hfree in Hk by (now rewrite Hs, Ha).
      symmetry in Hk. now apply map_non_empty_singleton in Hk. }
    exists n. rewrite He, sendMessage_messages by assumption.
    destruct (sendMessage_fields env c s Ha) as (_ & _ & -> & _).
    rewrite fmap_app, Hn, Hidle, app_nil_r. reflexivity.
  - assert (isTyping s = true) as Hwait.
    { destruct Hinv as [[Hk _] | (k' & r' & _ & Ht)]; [| assumption].
      rewrite Hk, lookup_empty in Hr. discriminate. }
    exists (S n). rewrite He.
    destruct (sendMessage_settled_bot o c
                (setInFlight (delete k (inFlight s)) (issued s) s))
      as (m & -> & Hm).
    destruct (sendMessage_settled_fields o c
                (setInFlight (delete k (inFlight s)) (issued s) s)) as [-> _].
    cbn [messages setInFlight].
    rewrite fmap_app, Hn, Hwait, <- turns_snoc, app_nil_r. simpl.
    rewrite Hm, <- app_assoc. reflexivity.
Qed.

Lemma run_alternates evs s :
  idle_or_waiting s ->
  (exists n, sender <$> messages s
             = bot :: turns n ++ (if isTyping s then [user] else [])) ->
  serial env s evs = true ->
  exists n, sender <$> messages (run env s evs)
            = bot :: turns n ++ (if isTyping (run env s evs) then [user] else []).
Proof.
  revert s. induction evs as [|e evs IH]; intros s Hinv Halt Hser;
    [assumption |].
  simpl in Hser. apply andb_true_iff in Hser as [Hfree Hser].
  assert (submits e && accepted env s = true -> inFlight s = ∅) as Hfree'.
  { intros Hsub. rewrite Hsub in Hfree. simpl in Hfree.
    now apply bool_decide_eq_true in Hfree. }
  simpl. apply IH; [| | assumption].
  - now apply step_serial.
  - now apply step_alternates.
Qed.

End Alternation.

(** X15: on a component with a key, in a session in which no submit gets
    past the guard while a request is in flight, the store is the greeting
    followed by complete turns, a user message and then a bot message, and
    it ends with a user message on its own exactly while [isTyping] is
    true. *)
Theorem serial_session_alternates (env : Env) (d : Z) (c0 : Clock)
    (evs : list Event) :
  key_missing env = false ->
  serial env (mount env c0 (initialState env d)) evs = true ->
  exists n,
    sender <$> messages (session env d c0 evs)
    = bot :: turns n
      ++ (if isTyping (session env d c0 evs) then [user] else []).
Proof.
  intros Hk Hser. unfold session.
  apply run_alternates; [apply mount_idle | | assumption].
  exists 0.
  destruct (mount_fields env c0 d) as (_ & _ & -> & _ & _ & _ & _ & ->).
  now rewrite Hk.
Qed.

Lemma serial_session_alternates_witness :
  key_missing Sample.with_key = false /\
  serial Sample.with_key (mount Sample.with_key (Sample.at_ms 5)
                            (initialState Sample.with_key 0))
    (Sample.hello_turn (JsString.lit "Hi")) = true /\
  exists n,
    sender <$> messages (session Sample.with_key 0 (Sample.at_ms 5)
                           (Sample.hello_turn (JsString.lit "Hi")))
    = bot :: turns n ++ [].
Proof.
  split; [reflexivity |]. split; [reflexivity |].
  apply (serial_session_alternates Sample.with_key 0 (Sample.at_ms 5)
           (Sample.hello_turn (JsString.lit "Hi"))); reflexivity.
Defined.

(** ** When ids are distinct *)

Section Ids.

Variable env : Env.

Implicit Types (s : State) (e : Event) (c : Clock) (evs : list Event).




End Ids.



(** ** Trimmed answers *)

Section Trim.

Implicit Types (s : jsstring) (a : N).

Lemma trimStart_split s :
  exists ws, s = ws ++ JsString.trimStart s /\
             Forall (fun a => JsString.isWhiteSpace a = true) ws.
Proof.
  induction s as [|a s (ws & Hs & Hws)]; [now exists [] |].
  simpl. destruct (JsString.isWhiteSpace a) eqn:Ha.
  - exists (a :: ws). split; [simpl; now f_equal | now constructor].
  - now exists [].
Qed.

Lemma trimStart_head s a :
  head (JsString.trimStart s) = Some a -> JsString.isWhiteSpace a = false.
Proof.
  induction s as [|b s IH]; [discriminate |].
  simpl. destruct (JsString.isWhiteSpace b) eqn:Hb; [assumption |].
  now intros [= <-].
Qed.

Lemma last_rev_head {A} (l : list A) : last (rev l) = head l.
Proof. destruct l as [|x l]; [reflexivity |]. simpl. apply last_snoc. Qed.

Lemma trimEnd_split s :
  exists ws, s = JsString.trimEnd s ++ ws /\
             Forall (fun a => JsString.isWhiteSpace a = true) ws.
Proof.
  destruct (trimStart_split (rev s)) as (ws & Hs & Hws).
  exists (rev ws). split; [| now apply Forall_rev].
  unfold JsString.trimEnd. rewrite <- rev_app_distr, <- Hs.
  now rewrite rev_involutive.
Qed.

Lemma trimEnd_last s a :
  last (JsString.trimEnd s) = Some a -> JsString.isWhiteSpace a = false.
Proof.
  unfold JsString.trimEnd. rewrite last_rev_head. apply trimStart_head.
Qed.

Lemma trimEnd_head s a :
  head (JsString.trimEnd s) = Some a -> head s = Some a.
Proof.
  intros H. destruct (trimEnd_split s) as (ws & Hs & _).
  rewrite Hs. apply head_app_Some. now left.
Qed.

End Trim.

(** X17: the text stored for an answer is the response text without the
    white space around it: the response is some white space, then the
    stored text, then some white space, and the stored text neither begins
    nor ends with a white space character. *)
Theorem answer_stored_trimmed (c : Clock) (t : jsstring) :
  (exists before after,
      t = before ++ text (botResponse c t) ++ after /\
      Forall (fun a => JsString.isWhiteSpace a = true) before /\
      Forall (fun a => JsString.isWhiteSpace a = true) after) /\
  (forall a, head (text (botResponse c t)) = Some a ->
             JsString.isWhiteSpace a = false) /\
  (forall a, last (text (botResponse c t)) = Some a ->
             JsString.isWhiteSpace a = false).
Proof.
  simpl. unfold JsString.trim. split; [| split].
  - destruct (trimStart_split t) as (before & Ht & Hb).
    destruct (trimEnd_split (JsString.trimStart t)) as (after & Hu & Ha).
    exists before, after. split; [| easy]. now rewrite <- Hu.
  - intros a H. apply trimEnd_head in H. now apply trimStart_head in H.
  - apply trimEnd_last.
Qed.
